(* Verification of src/static/js/main.js (Blog CMS client-side helpers).

   The browser environment is modelled explicitly: the wall clock and the
   locale date renderer are parameters, setTimeout/clearTimeout are a timer
   table driven by an event loop, DOM queries are lists of element records,
   and DOM side effects are recorded as a trace of operations. *)

From Stdlib Require Import ZArith QArith List String Ascii Bool Lia.
Import ListNotations.
Open Scope Z_scope.

(* ------------------------------------------------------------------------ *)
(** * Number to string, as a JS template literal renders an integer *)

Fixpoint digits_of_N (fuel : nat) (n : N) (acc : string) : string :=
  match fuel with
  | O => acc
  | S f =>
      let acc' := String (ascii_of_N (48 + N.modulo n 10)) acc in
      if N.ltb n 10 then acc' else digits_of_N f (N.div n 10) acc'
  end.

Definition number_to_string (z : Z) : string :=
  let body := digits_of_N (S (N.size_nat (Z.to_N (Z.abs z)))) (Z.to_N (Z.abs z)) EmptyString in
  if z <? 0 then String "-" body else body.

(* ------------------------------------------------------------------------ *)
(** * timeAgo (main.js lines 319-334)

    [now] is the reading of [new Date()] and [past] the time value of
    [new Date(date)], both in integral milliseconds as JS Date holds them.
    [toLocaleDateString] is the browser's locale rendering of a date. *)

Section TimeAgo.
Variable toLocaleDateString : Z -> string.

Definition plural (n : Z) : string := if n >? 1 then "s" else "".

Definition timeAgo (now past : Z) : string :=
  let diffMs := now - past in
  let diffSecs := Z.div diffMs 1000 in
  let diffMins := Z.div diffSecs 60 in
  let diffHours := Z.div diffMins 60 in
  let diffDays := Z.div diffHours 24 in
  if diffSecs <? 60 then "just now"
  else if diffMins <? 60 then
    (number_to_string diffMins ++ " minute" ++ plural diffMins ++ " ago")%string
  else if diffHours <? 24 then
    (number_to_string diffHours ++ " hour" ++ plural diffHours ++ " ago")%string
  else if diffDays <? 7 then
    (number_to_string diffDays ++ " day" ++ plural diffDays ++ " ago")%string
  else toLocaleDateString past.
End TimeAgo.

(* ------------------------------------------------------------------------ *)
(** * debounce (main.js lines 342-352) on an event loop with timers

    The closure variable [timeout] and the browser's timer table form the
    state.  Time is in integral milliseconds. *)

(** WebIDL [long] conversion (ToInt32) of an integral number. *)
Definition ToInt32 (z : Z) : Z :=
  let m := z mod 2 ^ 32 in if m >=? 2 ^ 31 then m - 2 ^ 32 else m.

(** The delay [setTimeout(f, wait)] waits: [wait] as a [long], and 0 when
    that is negative (HTML timer initialisation steps). *)
Definition timer_delay (wait : Z) : Z := Z.max 0 (ToInt32 wait).

Section Debounce.
Variable A : Type.
Variable wait : Z.

Record timer := mkTimer { t_id : nat; t_due : Z; t_args : A }.

Record dstate := mkD {
  now : Z;              (* current time of the event loop *)
  next_id : nat;        (* next handle setTimeout returns *)
  table : list timer;   (* pending timers *)
  timeout : option nat; (* the closure's [let timeout] *)
  calls : list (Z * A)  (* invocations of [func]: time and arguments *)
}.

Definition clearTimeout (h : option nat) (tbl : list timer) : list timer :=
  match h with
  | None => tbl
  | Some id => filter (fun t => negb (Nat.eqb (t_id t) id)) tbl
  end.

(** [executedFunction(...args)]: clear the pending timer, arm a new one. *)
Definition executedFunction (args : A) (s : dstate) : dstate :=
  let tbl := clearTimeout (timeout s) (table s) in
  let id := next_id s in
  mkD (now s) (S id) (tbl ++ [mkTimer id (now s + timer_delay wait) args])
      (Some id) (calls s).

(** [later]: [clearTimeout(timeout); func(...args)]. *)
Definition later (args : A) (s : dstate) : dstate :=
  mkD (now s) (next_id s) (clearTimeout (timeout s) (table s)) (timeout s)
      (calls s ++ [(now s, args)]).

(** The timer with the smallest due time (first armed on ties). *)
Fixpoint earliest (tbl : list timer) : option timer :=
  match tbl with
  | [] => None
  | t :: r =>
      match earliest r with
      | None => Some t
      | Some u => if t_due u <? t_due t then Some u else Some t
      end
  end.

Definition set_now (T : Z) (s : dstate) : dstate :=
  mkD T (next_id s) (table s) (timeout s) (calls s).

Definition remove_timer (id : nat) (s : dstate) (at_ : Z) : dstate :=
  mkD at_ (next_id s) (filter (fun t => negb (Nat.eqb (t_id t) id)) (table s))
      (timeout s) (calls s).

(** The event loop runs every timer due up to time [T], in due order. *)
Fixpoint run (fuel : nat) (T : Z) (s : dstate) : dstate :=
  match fuel with
  | O => set_now T s
  | S f =>
      match earliest (table s) with
      | Some t =>
          if t_due t <=? T
          then run f T (later (t_args t) (remove_timer (t_id t) s (t_due t)))
          else set_now T s
      | None => set_now T s
      end
  end.

(** Each fired timer leaves the table, so [length table + 1] steps suffice. *)
Definition advance (T : Z) (s : dstate) : dstate :=
  run (S (List.length (table s))) T s.

(** A burst: each call [(t, args)] happens at time [t].  The timers due
    before [t] run first; a timer due at the very instant of a call does not
    run before it (as for a second call made in the same task). *)
Fixpoint process (bs : list (Z * A)) (s : dstate) : dstate :=
  match bs with
  | [] => s
  | (t, a) :: r => process r (executedFunction a (set_now t (advance (t - 1) s)))
  end.

(** Consecutive calls are less than [wait] apart (and in time order). *)
Fixpoint rapid (bs : list (Z * A)) : Prop :=
  match bs with
  | (t, _) :: (((t', _) :: _) as r) => t <= t' < t + wait /\ rapid r
  | _ => True
  end.

(** The state right after [debounce(func, wait)] returned, at time [t0]. *)
Definition debounce_init (t0 : Z) (id0 : nat) : dstate := mkD t0 id0 [] None [].
End Debounce.

Arguments t_id {A}. Arguments t_due {A}. Arguments t_args {A}.
Arguments now {A}. Arguments next_id {A}. Arguments table {A}.
Arguments timeout {A}. Arguments calls {A}.

(* ------------------------------------------------------------------------ *)
(** * DOM model shared by the initializers

    Elements are records; the effects an event handler or initializer has on
    the page (and on the console) are recorded as a trace. *)

Record elem := mkElem {
  eid : nat;               (* node identity *)
  tag : string;            (* tagName, lower case *)
  name_attr : string;      (* the [name] attribute *)
  classes : list string    (* classList *)
}.

Definition has_class (e : elem) (c : string) : bool :=
  existsb (String.eqb c) (classes e).

Inductive effect :=
  | AddListener (target : nat) (event : string)
  | ToggleClass (target : nat) (cls : string)
  | AddClass (target : nat) (cls : string)
  | RemoveClass (target : nat) (cls : string)
  | SetText (target : nat) (text : string)
  | SetStyle (target : nat) (prop value : string)
  | SetClassName (target : nat) (cls : string)
  | CreateElement (id : nat) (tagname : string)
  | AppendChild (parent child : nat)
  | ClearChildren (target : nat)
  | RemoveNode (target : nat)
  | CreateObjectURL (filename : string)
  | Focus (target : nat)
  | PreventDefault
  | SetTimeout (delay : Z) (target : nat)
  | CloseAlert (instance : nat)
  | ConsoleLog (msg : string)
  | ConsoleError (msg detail : string)
  | Throw (err : string).

(** Effects that change the document. *)
Definition is_mutation (e : effect) : bool :=
  match e with
  | ToggleClass _ _ | AddClass _ _ | RemoveClass _ _ | SetText _ _
  | SetStyle _ _ _ | SetClassName _ _ | AppendChild _ _ | ClearChildren _ | RemoveNode _ => true
  | _ => false
  end.

Definition is_throw (e : effect) : bool :=
  match e with Throw _ => true | _ => false end.

(* ------------------------------------------------------------------------ *)
(** * copyToClipboard (main.js lines 359-366)

    [navigator.clipboard] is absent outside secure contexts; then the member
    access [navigator.clipboard.writeText] throws a TypeError inside the
    [try].  [writeText] returns a promise that fulfils or rejects. *)

Inductive promise := Fulfilled | Rejected (err : string).

Record clipboard := mkClipboard { writeText : string -> promise }.

Record copy_result := mkCopy {
  returned : promise;      (* the promise copyToClipboard returns *)
  console : list effect;   (* console output *)
  writes : list string     (* texts passed to writeText *)
}.

Definition copyToClipboard (nav_clipboard : option clipboard) (text : string)
  : copy_result :=
  match nav_clipboard with
  | None =>
      mkCopy Fulfilled
        [ConsoleError "Failed to copy:"
           "TypeError: Cannot read properties of undefined (reading 'writeText')"] []
  | Some c =>
      match writeText c text with
      | Fulfilled => mkCopy Fulfilled [ConsoleLog "Copied to clipboard"] [text]
      | Rejected err => mkCopy Fulfilled [ConsoleError "Failed to copy:" err] [text]
      end
  end.

(* ------------------------------------------------------------------------ *)
(** * initAutoHideAlerts (main.js lines 253-270) *)

(** [.alert:not(.alert-permanent)] *)
Definition alert_selector (e : elem) : bool :=
  has_class e "alert" && negb (has_class e "alert-permanent").

(** One [setTimeout(..., 5000)] per element the query returns. *)
Definition initAutoHideAlerts (doc : list elem) : list effect :=
  map (fun a => SetTimeout 5000 (eid a)) (filter alert_selector doc).

(** The global [bootstrap] may be missing; when present,
    [bootstrap.Alert.getOrCreateInstance] maps an alert to an instance. *)
Inductive bootstrap_env :=
  | BootstrapMissing
  | BootstrapLoaded (getOrCreateInstance : nat -> option nat).

(** The callback scheduled for an alert. *)
Definition autoHideCallback (bootstrap : bootstrap_env) (alert : nat) : list effect :=
  match bootstrap with
  | BootstrapMissing => [Throw "ReferenceError: bootstrap is not defined"]
  | BootstrapLoaded getOrCreateInstance =>
      match getOrCreateInstance alert with
      | Some bsAlert => [CloseAlert bsAlert]
      | None =>
          [SetStyle alert "transition" "opacity 0.3s";
           SetStyle alert "opacity" "0";
           SetTimeout 300 alert]
      end
  end.

(* ------------------------------------------------------------------------ *)
(** * Guarded handlers of initCommentSystem, initCharacterCounters and
      initSearchEnhancement *)

Record form := mkForm {
  form_id : nat;
  form_classes : list string;
  form_input : option nat    (* replyForm.querySelector('input[name="content"]') *)
}.

Definition toggle (c : string) (cs : list string) : list string :=
  if existsb (String.eqb c) cs then filter (fun x => negb (String.eqb c x)) cs
  else cs ++ [c].

(** Click on a [.reply-btn] (main.js lines 94-108);
    [getElementById] is the document lookup. *)
Definition replyClick (getElementById : string -> option form) (commentId : string)
  : list effect :=
  match getElementById ("reply-form-" ++ commentId)%string with
  | None => []
  | Some replyForm =>
      ToggleClass (form_id replyForm) "d-none" ::
      (if existsb (String.eqb "d-none") (toggle "d-none" (form_classes replyForm))
       then []
       else match form_input replyForm with
            | Some input => [Focus input]
            | None => []
            end)
  end.

(** [input] on a comment textarea (main.js lines 125-138): [next] is
    [this.nextElementSibling], [current] is [this.value.length]. *)
Definition counterInput (next : option elem) (current : nat) (maxLength : Z)
  : list effect :=
  match next with
  | Some counter =>
      if has_class counter "char-counter" then
        SetText (eid counter)
          (number_to_string (Z.of_nat current) ++ "/" ++ number_to_string maxLength) ::
        (if Z.of_nat current * 10 >? maxLength * 9
         then [AddClass (eid counter) "text-danger"]
         else [RemoveClass (eid counter) "text-danger"])
      else []
  | None => []
  end.

(** initCharacterCounters (main.js lines 280-293): each lookup yields the
    element id and, for the textarea, its value. *)
Definition initCharacterCounters (metaDesc : option (nat * string))
    (charCount : option nat) : list effect :=
  match metaDesc, charCount with
  | Some (m, value), Some c =>
      [SetText c (number_to_string (Z.of_nat (String.length value)));
       AddListener m "input"]
  | _, _ => []
  end.

(** The '/' shortcut (main.js lines 68-77); [mainSearch] is the result of
    [document.querySelector('.navbar input[type="search"]')]. *)
Definition slashKeydown (key : string) (inputFocused : bool) (mainSearch : option nat)
  : list effect :=
  if String.eqb key "/" && negb inputFocused then
    PreventDefault :: match mainSearch with Some m => [Focus m] | None => [] end
  else [].

(** The listener registrations of initImagePreview (lines 151-188). *)
Definition initImagePreview (imageInputs : list elem) : list effect :=
  map (fun i => AddListener (eid i) "change") imageInputs.

(** The listener registrations of initSearchEnhancement (lines 46-78): each
    matched input comes with the form [input.closest('form')] returns, if
    any; [doc] is the document, which gets the keydown listener. *)
Definition initSearchEnhancement (doc : nat) (inputs : list (nat * option nat))
  : list effect :=
  flat_map (fun p => AddListener (fst p) "input" ::
              match snd p with
              | Some fm => [AddListener fm "submit"]
              | None => []
              end) inputs
  ++ [AddListener doc "keydown"].

Definition is_listener (e : effect) : bool :=
  match e with AddListener _ _ => true | _ => false end.

(* ------------------------------------------------------------------------ *)
(** * initScrollToTop's scroll listener (main.js lines 220-226) *)

Record button := mkButton { button_id : nat; display : string }.

Definition onScroll (scrollY : Q) (b : button) : button :=
  if negb (Qle_bool scrollY 300) then mkButton (button_id b) "block"
  else mkButton (button_id b) "none".

(* ------------------------------------------------------------------------ *)
(** * Empty-search guard of initSearchEnhancement (main.js lines 56-64) *)

(** A JS string value is a sequence of UTF-16 code units. *)
Definition js_string := list Z.

(** The code points of ECMAScript WhiteSpace and LineTerminator: TAB, LF,
    VT, FF, CR, SPACE, NBSP, U+1680, U+2000-U+200A, U+2028, U+2029, U+202F,
    U+205F, U+3000 and ZWNBSP (U+FEFF), the Unicode Space_Separator set of
    Unicode 15 included. *)
Definition is_ws (c : Z) : bool :=
  ((9 <=? c) && (c <=? 13)) || (c =? 32) || (c =? 160) || (c =? 5760) ||
  ((8192 <=? c) && (c <=? 8202)) || (c =? 8232) || (c =? 8233) ||
  (c =? 8239) || (c =? 8287) || (c =? 12288) || (c =? 65279).

Fixpoint drop_ws (l : js_string) : js_string :=
  match l with
  | [] => []
  | c :: r => if is_ws c then drop_ws r else l
  end.

(** [String.prototype.trim]: strip white space at both ends.  Every white
    space code point is a single code unit and no surrogate is white space,
    so stripping code units is stripping code points. *)
Definition trim (s : js_string) : js_string :=
  rev (drop_ws (rev (drop_ws s))).

(** The [submit] listener of the input's form: [input.value.trim() === '']. *)
Definition searchSubmit (input : nat) (value : js_string) : list effect :=
  match trim value with
  | [] => [PreventDefault; Focus input]
  | _ :: _ => []
  end.

(* ------------------------------------------------------------------------ *)
(** * Character-counter creation of initCommentSystem (main.js lines 112-123)

    The document is a list of sibling groups, the children of each parent
    node in document order (text nodes included).  A new node is created and
    inserted into the group of the textarea only, so the groups of other
    parents are unaffected. *)

Inductive node := TextNode (text : string) | ElemNode (e : elem).

Definition group := list node.
Definition document := list group.

Definition elem_eq_dec (a b : elem) : {a = b} + {a <> b}.
Proof.
  decide equality; first [apply list_eq_dec, string_dec | apply string_dec
                         | apply Nat.eq_dec].
Defined.
Arguments elem_eq_dec : simpl never.

Definition is_node (x : elem) (n : node) : bool :=
  match n with ElemNode e => if elem_eq_dec e x then true else false | _ => false end.

(** [textarea[name="content"]] *)
Definition is_comment_textarea (e : elem) : bool :=
  String.eqb (tag e) "textarea" && String.eqb (name_attr e) "content".

Definition group_textareas (g : group) : list elem :=
  flat_map (fun n => match n with
                     | ElemNode e => if is_comment_textarea e then [e] else []
                     | TextNode _ => [] end) g.

(** [document.querySelectorAll('textarea[name="content"]')] *)
Definition query_textareas (d : document) : list elem := flat_map group_textareas d.

(** First element node of a sibling list. *)
Fixpoint next_elem (g : group) : option elem :=
  match g with
  | [] => None
  | TextNode _ :: r => next_elem r
  | ElemNode e :: _ => Some e
  end.

(** [x.nextElementSibling] *)
Fixpoint nextElementSibling (x : elem) (g : group) : option elem :=
  match g with
  | [] => None
  | n :: r => if is_node x n then next_elem r else nextElementSibling x r
  end.

(** [x.parentNode.insertBefore(n, x.nextSibling)]: [n] right after [x]. *)
Fixpoint insert_after (x : elem) (n : node) (g : group) : group :=
  match g with
  | [] => []
  | m :: r => if is_node x m then m :: n :: r else m :: insert_after x n r
  end.

Definition has_counter (x : elem) (g : group) : bool :=
  match nextElementSibling x g with
  | Some c => has_class c "char-counter"
  | None => false
  end.

(** The [small.char-counter] element created for a textarea. *)
Definition counter_elem (id : nat) : elem :=
  mkElem id "small" "" ["char-counter"; "text-muted"; "d-block"; "text-end"]%string.

(** The body of the [forEach] for one textarea, on the group holding it;
    [fresh] is the identity the next created element gets. *)
Fixpoint counter_step (x : elem) (d : document) (fresh : nat) : document * nat :=
  match d with
  | [] => ([], fresh)
  | g :: r =>
      if existsb (is_node x) g then
        if has_counter x g then (g :: r, fresh)
        else (insert_after x (ElemNode (counter_elem fresh)) g :: r, S fresh)
      else let '(r', fresh') := counter_step x r fresh in (g :: r', fresh')
  end.

(** The [forEach] over the textareas. *)
Definition counters_fold (ts : list elem) (st : document * nat) : document * nat :=
  fold_left (fun st x => counter_step x (fst st) (snd st)) ts st.

Definition initCommentCounters (d : document) (fresh : nat) : document * nat :=
  counters_fold (query_textareas d) (d, fresh).

(** Whether [x] occurs in the document, and whether, in the group holding
    it, its next element sibling is a [char-counter]. *)
Definition doc_mem (x : elem) (d : document) : bool :=
  existsb (existsb (is_node x)) d.

Fixpoint doc_has_counter (x : elem) (d : document) : bool :=
  match d with
  | [] => false
  | g :: r => if existsb (is_node x) g then has_counter x g else doc_has_counter x r
  end.

(* ------------------------------------------------------------------------ *)
(** * The change listener of initImagePreview (main.js lines 155-186) *)

Record file := mkFile { ftype : string; fname : string }.

(** [input] is the file input, [parent] its parent node, [existing] the
    result of [this.parentNode.querySelector('.image-preview')], [files]
    is [e.target.files] and [fresh] the identity of the next created node. *)
Definition imagePreviewChange (parent : nat) (existing : option nat)
    (files : list file) (fresh : nat) : list effect :=
  match files with
  | [] => []
  | f :: _ =>
      if String.prefix "image/" (ftype f) then
        let '(preview, created, fresh1) :=
          match existing with
          | Some p => (p, [], fresh)
          | None => (fresh, [CreateElement fresh "div";
                             SetClassName fresh "image-preview mt-2";
                             AppendChild parent fresh], S fresh)
          end in
        created ++
        [CreateElement fresh1 "img"; CreateObjectURL (fname f);
         SetClassName fresh1 "img-thumbnail"; SetStyle fresh1 "maxHeight" "200px";
         ClearChildren preview; AppendChild preview fresh1;
         CreateElement (S fresh1) "small";
         SetClassName (S fresh1) "d-block text-muted mt-1";
         SetText (S fresh1) (fname f); AppendChild preview (S fresh1)]
      else []
  end.

(* ------------------------------------------------------------------------ *)
(** * isInputFocused (main.js lines 304-312) *)

(** [document.activeElement]: its upper-case tagName and isContentEditable. *)
Record active_elem := mkActive { tagName : string; isContentEditable : bool }.

(** [active && (...)]: a null active element gives a falsy result. *)
Definition isInputFocused (active : option active_elem) : bool :=
  match active with
  | None => false
  | Some a =>
      String.eqb (tagName a) "INPUT" || String.eqb (tagName a) "TEXTAREA" ||
      String.eqb (tagName a) "SELECT" || isContentEditable a
  end.

(* ------------------------------------------------------------------------ *)
(** * The scroll-to-top button across scroll events (main.js lines 198-226) *)

(** The button as initScrollToTop creates it: [display: none] in its cssText. *)
Definition scrollTopButton (id : nat) : button := mkButton id "none".

(** The scroll listener run on each scroll position in turn. *)
Definition scrollEvents (ys : list Q) (b : button) : button :=
  fold_left (fun b y => onScroll y b) ys b.

(* ------------------------------------------------------------------------ *)
(** * debounce: calls spaced by more than the timer delay *)

Fixpoint spaced (A : Type) (wait : Z) (bs : list (Z * A)) : Prop :=
  match bs with
  | (t, _) :: (((t', _) :: _) as r) => t + timer_delay wait < t' /\ spaced A wait r
  | _ => True
  end.

(** The effects that allocate an object URL. *)
Definition is_object_url (e : effect) : bool :=
  match e with CreateObjectURL _ => true | _ => false end.

(* ======================================================================== *)
(** * Theorems *)

(** ** timeAgo *)

(** Claim C1: at the fixed deltas of 30 s, 5 min, 2 h, 3 days and 10 days
    before the current time, [timeAgo] returns "just now", "5 minutes ago",
    "2 hours ago", "3 days ago" and the locale date string of the date. *)
Theorem timeAgo_fixed_deltas (toLocaleDateString : Z -> string) (now past : Z) :
  timeAgo toLocaleDateString now (now - 30000) = "just now"%string /\
  timeAgo toLocaleDateString now (now - 300000) = "5 minutes ago"%string /\
  timeAgo toLocaleDateString now (now - 7200000) = "2 hours ago"%string /\
  timeAgo toLocaleDateString now (now - 259200000) = "3 days ago"%string /\
  timeAgo toLocaleDateString now (now - 864000000)
    = toLocaleDateString (now - 864000000).
Proof.
  unfold timeAgo.
  repeat split; rewrite Z.sub_sub_distr, Z.sub_diag; reflexivity.
Qed.

(** ** debounce *)

Section DebounceProofs.
Variable A : Type.
Variable wait : Z.

Lemma advance_before_due (s : dstate A) (tm : timer A) (T : Z) :
  table s = [tm] -> T < t_due tm ->
  advance A T s = mkD A T (next_id s) [tm] (timeout s) (calls s).
Proof.
  destruct s as [n k tbl h cs]; simpl; intros -> Hlt.
  unfold advance; simpl.
  destruct (Z.leb_spec (t_due tm) T); [lia|reflexivity].
Qed.

Lemma advance_after_due (s : dstate A) (tm : timer A) (T : Z) :
  table s = [tm] -> timeout s = Some (t_id tm) -> t_due tm <= T ->
  advance A T s =
    mkD A T (next_id s) [] (timeout s) (calls s ++ [(t_due tm, t_args tm)]).
Proof.
  destruct s as [n k tbl h cs]; simpl; intros -> -> Hle.
  unfold advance; simpl.
  destruct (Z.leb_spec (t_due tm) T); [|lia].
  unfold set_now, later, remove_timer; simpl.
  rewrite Nat.eqb_refl; reflexivity.
Qed.

(** One call of the burst, made before the pending timer is due, replaces
    that timer by a fresh one for the new arguments. *)
Lemma call_rearms (s : dstate A) (tm : timer A) (t : Z) (a : A) :
  table s = [tm] -> timeout s = Some (t_id tm) -> t < t_due tm ->
  executedFunction A wait a (set_now A t (advance A (t - 1) s)) =
    mkD A t (S (next_id s)) [mkTimer A (next_id s) (t + timer_delay wait) a]
        (Some (next_id s)) (calls s).
Proof.
  intros Ht Hh Hlt.
  rewrite (advance_before_due s tm (t - 1) Ht) by lia.
  unfold executedFunction; simpl. rewrite Hh; simpl.
  rewrite Nat.eqb_refl; reflexivity.
Qed.

Lemma timer_delay_small (w : Z) : 0 <= w < 2 ^ 31 -> timer_delay w = w.
Proof.
  intros Hw; unfold timer_delay, ToInt32.
  rewrite Z.mod_small by lia.
  destruct (Z.geb_spec w (2 ^ 31)); lia.
Qed.

Lemma process_inv (bs : list (Z * A)) :
  forall (t : Z) (a : A) (s : dstate A) (d : Z * A),
  timer_delay wait = wait ->
  rapid A wait ((t, a) :: bs) ->
  table s = [mkTimer A (next_id s - 1)%nat (t + timer_delay wait) a] ->
  timeout s = Some (next_id s - 1)%nat ->
  calls s = [] ->
  (let s' := process A wait bs s in
  table s' = [mkTimer A (next_id s' - 1)%nat
                (fst (last ((t, a) :: bs) d) + timer_delay wait)
                (snd (last ((t, a) :: bs) d))] /\
  timeout s' = Some (next_id s' - 1)%nat /\
  calls s' = []).
Proof.
  induction bs as [|[t' a'] r IH]; intros t a s d Hw Hr Ht Hh Hc; simpl.
  - repeat split; assumption.
  - destruct Hr as [[Hle Hlt] Hr].
    rewrite (call_rearms s _ t' a' Ht Hh) by (simpl; lia).
    apply (IH t' a'); simpl; auto.
    + rewrite Nat.sub_0_r; reflexivity.
    + rewrite Nat.sub_0_r; reflexivity.
Qed.

End DebounceProofs.



(** ** copyToClipboard *)

(** Claim C3: whatever the clipboard does, the promise copyToClipboard
    returns is fulfilled (no error reaches the caller), writeText is called
    at most once (no retry), and a failed write is logged once through
    [console.error('Failed to copy:', err)]. *)
Theorem copyToClipboard_never_rejects (nav_clipboard : option clipboard) (text : string) :
  returned (copyToClipboard nav_clipboard text) = Fulfilled /\
  (List.length (writes (copyToClipboard nav_clipboard text)) <= 1)%nat /\
  (forall c err, nav_clipboard = Some c -> writeText c text = Rejected err ->
     console (copyToClipboard nav_clipboard text) = [ConsoleError "Failed to copy:" err]) /\
  (nav_clipboard = None ->
     exists detail, console (copyToClipboard nav_clipboard text)
                    = [ConsoleError "Failed to copy:" detail]).
Proof.
  destruct nav_clipboard as [c|]; simpl.
  - destruct (writeText c text) as [|e] eqn:Hw; simpl;
      (split; [reflexivity|]); (split; [auto|]);
      (split; [|intros Hn; discriminate]);
      intros c' err Hc He; injection Hc as <-; congruence.
  - split; [reflexivity|]; split; [auto|]; split.
    + intros c err Hc; discriminate.
    + intros _; eexists; reflexivity.
Qed.

(** ** initAutoHideAlerts *)

(** Claim C4: the timers initAutoHideAlerts schedules are exactly one
    [setTimeout] of 5000 ms per element carrying [alert] and not
    [alert-permanent]; an [alert-permanent] element is never scheduled. *)
Theorem initAutoHideAlerts_five_seconds (doc : list elem) :
  (forall x, In x (initAutoHideAlerts doc) <->
     exists a, In a doc /\ has_class a "alert" = true /\
               has_class a "alert-permanent" = false /\ x = SetTimeout 5000 (eid a)) /\
  (forall d n, In (SetTimeout d n) (initAutoHideAlerts doc) -> d = 5000) /\
  (forall a, has_class a "alert-permanent" = true ->
     ~ In a (filter alert_selector doc)).
Proof.
  unfold initAutoHideAlerts, alert_selector.
  split; [|split].
  - intros x; rewrite in_map_iff; split.
    + intros [a [<- Ha]]; apply filter_In in Ha as [Hin Hs].
      apply andb_true_iff in Hs as [H1 H2]; apply negb_true_iff in H2.
      exists a; auto.
    + intros [a [Hin [H1 [H2 ->]]]]; exists a; split; [reflexivity|].
      apply filter_In; rewrite H1, H2; auto.
  - intros d n Hin; apply in_map_iff in Hin as [a [Heq _]]; congruence.
  - intros a Hp Hin; apply filter_In in Hin as [_ Hs].
    rewrite Hp, andb_false_r in Hs; discriminate.
Qed.

(** Claim C5 (evaluation at the failing input): when the Bootstrap global is
    not loaded, the auto-hide callback throws a ReferenceError before its
    availability check and never reaches the fade-and-remove fallback. *)
Theorem autoHide_without_bootstrap_throws (alert : nat) :
  autoHideCallback BootstrapMissing alert
    = [Throw "ReferenceError: bootstrap is not defined"] /\
  existsb is_throw (autoHideCallback BootstrapMissing alert) = true /\
  ~ In (SetStyle alert "opacity" "0") (autoHideCallback BootstrapMissing alert).
Proof.
  simpl; repeat split; auto.
  intros [H|H]; [discriminate|contradiction].
Qed.

(** ** Guards against missing elements *)

Lemma search_listeners_only (doc : nat) (inputs : list (nat * option nat)) :
  forallb is_listener (initSearchEnhancement doc inputs) = true.
Proof.
  unfold initSearchEnhancement; rewrite forallb_app; simpl.
  induction inputs as [|[i [f|]] r IH]; simpl in *; [reflexivity|exact IH|exact IH].
Qed.

Lemma forallb_existsb_false (p q : effect -> bool) (l : list effect) :
  forallb p l = true -> (forall e, p e = true -> q e = false) ->
  existsb q l = false.
Proof.
  intros Hl Hpq; induction l as [|e r IH]; simpl in *; [reflexivity|].
  apply andb_true_iff in Hl; destruct Hl as [He Hr].
  rewrite (Hpq e He); exact (IH Hr).
Qed.

(** Claim C6: the guarded routines neither mutate the document nor throw
    when their target elements are absent: the reply toggle without its
    [reply-form-<id>], initCharacterCounters without either of its two
    elements, the counter update without a [char-counter] sibling, the '/'
    shortcut without a navbar search input, initImagePreview with no image
    input, initAutoHideAlerts on a page where no element is a non-permanent
    alert, initSearchEnhancement, which registers a submit listener only on
    the forms that exist ([if (form)]) and otherwise only listeners, and the
    counter creation of initCommentSystem on a page with no comment
    textarea. *)
Theorem guards_on_missing_elements :
  (forall getElementById commentId,
     getElementById ("reply-form-" ++ commentId)%string = None ->
     replyClick getElementById commentId = []) /\
  (forall metaDesc charCount, metaDesc = None \/ charCount = None ->
     initCharacterCounters metaDesc charCount = []) /\
  (forall next current maxLength,
     (next = None \/ exists c, next = Some c /\ has_class c "char-counter" = false) ->
     counterInput next current maxLength = []) /\
  (forall key inputFocused,
     existsb is_mutation (slashKeydown key inputFocused None) = false /\
     existsb is_throw (slashKeydown key inputFocused None) = false) /\
  initImagePreview [] = [] /\
  (forall doc, forallb (fun e => negb (alert_selector e)) doc = true ->
     initAutoHideAlerts doc = []) /\
  (forall doc inputs,
     existsb is_mutation (initSearchEnhancement doc inputs) = false /\
     existsb is_throw (initSearchEnhancement doc inputs) = false /\
     (forall fm, In (AddListener fm "submit") (initSearchEnhancement doc inputs) <->
                 exists i, In (i, Some fm) inputs)) /\
  (forall d fresh, query_textareas d = [] -> initCommentCounters d fresh = (d, fresh)).
Proof.
  split; [|split; [|split; [|split; [|split; [|split; [|split]]]]]].
  - intros g cid H; unfold replyClick; rewrite H; reflexivity.
  - intros [[m v]|] [c|] [H|H]; try discriminate; reflexivity.
  - intros next current maxLength [->|[c [-> Hc]]]; simpl; [reflexivity|].
    rewrite Hc; reflexivity.
  - intros key f; unfold slashKeydown.
    destruct (String.eqb key "/" && negb f); split; reflexivity.
  - reflexivity.
  - intros doc H; unfold initAutoHideAlerts.
    replace (filter alert_selector doc) with (@nil elem); [reflexivity|].
    induction doc as [|e r IH]; simpl in *; [reflexivity|].
    destruct (alert_selector e); simpl in H; [discriminate|exact (IH H)].
  - intros doc inputs.
    pose proof (search_listeners_only doc inputs) as Hl.
    split; [|split].
    + apply (forallb_existsb_false _ _ _ Hl); intros [] He; (discriminate He || reflexivity).
    + apply (forallb_existsb_false _ _ _ Hl); intros [] He; (discriminate He || reflexivity).
    + intros fm; unfold initSearchEnhancement.
      rewrite in_app_iff, in_flat_map; simpl; split.
      * intros [[[i fo] [Hin Hx]] | [H|[]]]; [|discriminate H].
        simpl in Hx; destruct Hx as [H|Hx]; [discriminate H|].
        destruct fo as [f|]; simpl in Hx; [|contradiction].
        destruct Hx as [H|[]]; injection H as ->; exists i; exact Hin.
      * intros [i Hin]; left; exists (i, Some fm); split; [exact Hin|].
        simpl; right; left; reflexivity.
  - intros d fresh H; unfold initCommentCounters; rewrite H; reflexivity.
Qed.

(** ** Scroll-to-top button *)

(** Claim C7: after a scroll event the button is displayed ('block')
    exactly when [window.scrollY] exceeds 300, and hidden ('none')
    otherwise. *)
Theorem onScroll_display (scrollY : Q) (b : button) :
  (display (onScroll scrollY b) = "block"%string <-> 300 < scrollY)%Q /\
  (display (onScroll scrollY b) = "none"%string <-> scrollY <= 300)%Q.
Proof.
  unfold onScroll.
  destruct (Qle_bool scrollY 300) eqn:H; simpl.
  - apply Qle_bool_iff in H. split; split; intro Hx; try discriminate; auto.
    exfalso; apply (Qlt_not_le _ _ Hx H).
  - assert (Hlt : (300 < scrollY)%Q).
    { apply Qnot_le_lt; intro Hle; apply Qle_bool_iff in Hle; congruence. }
    split; split; intro Hx; try discriminate; auto.
    exfalso; apply (Qlt_not_le _ _ Hlt Hx).
Qed.

(** ** Empty-search guard *)

Lemma drop_ws_nil_iff (l : js_string) : drop_ws l = [] <-> forallb is_ws l = true.
Proof.
  induction l as [|c r IH]; simpl; [tauto|].
  destruct (is_ws c); simpl; [exact IH|].
  split; discriminate.
Qed.

Lemma drop_ws_head (l : js_string) (c : Z) (r : js_string) :
  drop_ws l = c :: r -> is_ws c = false.
Proof.
  induction l as [|d l' IH]; simpl; [discriminate|].
  destruct (is_ws d) eqn:Hd; [exact IH|].
  intros H; injection H as -> _; exact Hd.
Qed.

Lemma forallb_rev_ws (l : js_string) : forallb is_ws (rev l) = forallb is_ws l.
Proof.
  induction l as [|c r IH]; simpl; [reflexivity|].
  rewrite forallb_app, IH; simpl.
  rewrite andb_true_r, andb_comm; reflexivity.
Qed.

Lemma trim_empty_iff (s : js_string) :
  trim s = [] <-> forallb is_ws s = true.
Proof.
  unfold trim.
  split.
  - intros H.
    assert (H1 : drop_ws (rev (drop_ws s)) = [])
      by (destruct (drop_ws (rev (drop_ws s))) as [|c l] eqn:E; [reflexivity|];
          simpl in H; destruct (rev l); discriminate).
    apply drop_ws_nil_iff in H1; rewrite forallb_rev_ws in H1.
    apply drop_ws_nil_iff.
    destruct (drop_ws s) as [|c r] eqn:E; [reflexivity|].
    apply drop_ws_head in E; simpl in H1; rewrite E in H1; discriminate.
  - intros H; apply drop_ws_nil_iff in H; rewrite H; reflexivity.
Qed.

(** Claim C8: the submit listener of a search input's form prevents the
    submission and focuses the input exactly when the input's value is empty
    after [trim()], i.e. consists of JS white space only; for any other
    value it does nothing, so the submission proceeds. *)
Theorem searchSubmit_blocks_iff_blank (input : nat) (value : js_string) :
  (searchSubmit input value = [PreventDefault; Focus input] <-> trim value = []) /\
  (searchSubmit input value = [] <-> trim value <> []) /\
  (trim value = [] <-> forallb is_ws value = true).
Proof.
  unfold searchSubmit.
  split; [|split]; [| |apply trim_empty_iff].
  - destruct (trim value); split; congruence.
  - destruct (trim value); split; congruence.
Qed.

(** ** Image preview *)

(** Claim C10: when no file is selected, or the first selected file's MIME
    type does not start with 'image/', the change listener of the image
    preview does nothing: no preview element is created or cleared and no
    object URL is created. *)
Theorem imagePreviewChange_ignores_non_images (parent : nat) (existing : option nat)
    (files : list file) (fresh : nat) :
  (files = [] \/
   exists f rest, files = f :: rest /\ String.prefix "image/" (ftype f) = false) ->
  imagePreviewChange parent existing files fresh = [].
Proof.
  intros [->|[f [rest [-> Hf]]]]; simpl; [reflexivity|].
  rewrite Hf; reflexivity.
Qed.

(** ** Character counters *)

Section Counters.

Lemma is_node_elem (x e : elem) : is_node x (ElemNode e) = true <-> e = x.
Proof. simpl; destruct (elem_eq_dec e x); split; congruence. Qed.

Lemma is_node_counter (x : elem) (k : nat) :
  is_comment_textarea x = true -> is_node x (ElemNode (counter_elem k)) = false.
Proof.
  intros Hx; simpl; destruct (elem_eq_dec (counter_elem k) x) as [<-|]; [|reflexivity].
  vm_compute in Hx; discriminate.
Qed.

Lemma next_elem_insert (y : elem) (n : node) (r : group) :
  next_elem (insert_after y n r) = next_elem r.
Proof.
  induction r as [|[t|e] r IH]; simpl; [reflexivity| |].
  - exact IH.
  - destruct (elem_eq_dec e y); reflexivity.
Qed.

Lemma has_counter_insert_self (x : elem) (k : nat) (g : group) :
  existsb (is_node x) g = true ->
  has_counter x (insert_after x (ElemNode (counter_elem k)) g) = true.
Proof.
  unfold has_counter.
  induction g as [|m r IH]; simpl; [discriminate|].
  destruct (is_node x m) eqn:Hm; simpl.
  - rewrite Hm; reflexivity.
  - rewrite Hm; exact IH.
Qed.

Lemma nextElementSibling_insert_other (x y : elem) (n : node) (g : group) :
  x <> y -> is_node x n = false ->
  nextElementSibling x (insert_after y n g) = nextElementSibling x g.
Proof.
  intros Hxy Hn.
  induction g as [|m r IH]; simpl; [reflexivity|].
  destruct (is_node y m) eqn:Hy; simpl.
  - assert (Hx : is_node x m = false).
    { destruct m as [t|e]; [reflexivity|].
      apply is_node_elem in Hy; subst e.
      destruct (is_node x (ElemNode y)) eqn:E; [|reflexivity].
      apply is_node_elem in E; congruence. }
    rewrite Hx, Hn; reflexivity.
  - destruct (is_node x m); [apply next_elem_insert|exact IH].
Qed.

Lemma existsb_insert (x y : elem) (n : node) (g : group) :
  is_node x n = false ->
  existsb (is_node x) (insert_after y n g) = existsb (is_node x) g.
Proof.
  intros Hn; induction g as [|m r IH]; simpl; [reflexivity|].
  destruct (is_node y m); simpl; [rewrite Hn|rewrite IH]; reflexivity.
Qed.

Lemma group_textareas_insert (y : elem) (k : nat) (g : group) :
  group_textareas (insert_after y (ElemNode (counter_elem k)) g) = group_textareas g.
Proof.
  induction g as [|m r IH]; simpl; [reflexivity|].
  destruct (is_node y m); simpl; [reflexivity|].
  rewrite IH; reflexivity.
Qed.

(** A step on a textarea whose next element is already a counter changes
    nothing. *)
Lemma counter_step_has (x : elem) (d : document) (f : nat) :
  doc_has_counter x d = true -> counter_step x d f = (d, f).
Proof.
  induction d as [|g r IH]; simpl; [discriminate|].
  destruct (existsb (is_node x) g); [intros ->; reflexivity|].
  intros H; rewrite (IH H); reflexivity.
Qed.

Lemma counter_step_fst (x : elem) (g : group) (r : document) (f : nat) :
  existsb (is_node x) g = false ->
  fst (counter_step x (g :: r) f) = g :: fst (counter_step x r f).
Proof.
  intros H; simpl; rewrite H; destruct (counter_step x r f); reflexivity.
Qed.

Lemma counter_step_creates (x : elem) (d : document) (f : nat) :
  is_comment_textarea x = true -> doc_mem x d = true ->
  doc_has_counter x (fst (counter_step x d f)) = true.
Proof.
  unfold doc_mem; intros Hx.
  induction d as [|g r IH]; simpl; [discriminate|].
  destruct (existsb (is_node x) g) eqn:Hg; simpl.
  - intros _. destruct (has_counter x g) eqn:Hc; simpl.
    + rewrite Hg; exact Hc.
    + rewrite existsb_insert by (apply is_node_counter; exact Hx).
      rewrite Hg. apply has_counter_insert_self; exact Hg.
  - intros Hr. destruct (counter_step x r f) as [r' f'] eqn:E; simpl.
    rewrite Hg. specialize (IH Hr). simpl in IH. exact IH.
Qed.

Lemma counter_step_keeps (x y : elem) (d : document) (f : nat) :
  is_comment_textarea x = true -> doc_has_counter x d = true ->
  doc_has_counter x (fst (counter_step y d f)) = true.
Proof.
  intros Hx Hd.
  destruct (elem_eq_dec x y) as [<-|Hxy].
  { rewrite (counter_step_has x d f Hd); exact Hd. }
  revert Hd; induction d as [|g r IH]; simpl; [discriminate|].
  destruct (existsb (is_node y) g) eqn:Hy.
  - destruct (has_counter y g); simpl; [tauto|].
    rewrite existsb_insert by (apply is_node_counter; exact Hx).
    unfold has_counter.
    rewrite nextElementSibling_insert_other
      by (exact Hxy || (apply is_node_counter; exact Hx)).
    tauto.
  - destruct (counter_step y r f) as [r' f'] eqn:E; simpl.
    destruct (existsb (is_node x) g); [tauto|].
    intros Hr; specialize (IH Hr); exact IH.
Qed.

Lemma counter_step_mem (x y : elem) (d : document) (f : nat) :
  is_comment_textarea x = true ->
  doc_mem x (fst (counter_step y d f)) = doc_mem x d.
Proof.
  unfold doc_mem; intros Hx.
  induction d as [|g r IH]; simpl; [reflexivity|].
  destruct (existsb (is_node y) g).
  - destruct (has_counter y g); simpl; [reflexivity|].
    rewrite existsb_insert by (apply is_node_counter; exact Hx); reflexivity.
  - destruct (counter_step y r f) as [r' f'] eqn:E; simpl in *.
    rewrite IH; reflexivity.
Qed.

Lemma counter_step_query (y : elem) (d : document) (f : nat) :
  query_textareas (fst (counter_step y d f)) = query_textareas d.
Proof.
  unfold query_textareas.
  induction d as [|g r IH]; simpl; [reflexivity|].
  destruct (existsb (is_node y) g).
  - destruct (has_counter y g); simpl; [reflexivity|].
    rewrite group_textareas_insert; reflexivity.
  - destruct (counter_step y r f) as [r' f'] eqn:E; simpl in *.
    rewrite IH; reflexivity.
Qed.

Lemma query_textareas_spec (x : elem) (d : document) :
  In x (query_textareas d) -> is_comment_textarea x = true /\ doc_mem x d = true.
Proof.
  unfold query_textareas, doc_mem.
  intros H; apply in_flat_map in H as [g [Hg Hx]].
  unfold group_textareas in Hx; apply in_flat_map in Hx as [[t|e] [Hn He]];
    [contradiction|].
  destruct (is_comment_textarea e) eqn:Ht; [|contradiction].
  destruct He as [<-|[]]; split; [exact Ht|].
  apply existsb_exists; exists g; split; [exact Hg|].
  apply existsb_exists; exists (ElemNode e); split; [exact Hn|].
  apply is_node_elem; reflexivity.
Qed.

Lemma counters_fold_query (ts : list elem) (st : document * nat) :
  query_textareas (fst (counters_fold ts st)) = query_textareas (fst st).
Proof.
  revert st; induction ts as [|y ts IH]; intros st; simpl; [reflexivity|].
  unfold counters_fold in IH; rewrite IH, counter_step_query; reflexivity.
Qed.

Lemma counters_fold_all (ts : list elem) (st : document * nat) (x : elem) :
  is_comment_textarea x = true ->
  doc_has_counter x (fst st) = true \/ (In x ts /\ doc_mem x (fst st) = true) ->
  doc_has_counter x (fst (counters_fold ts st)) = true.
Proof.
  intros Hx; revert st; induction ts as [|y ts IH]; intros st H; simpl.
  - destruct H as [H|[[] _]]; exact H.
  - apply (IH (counter_step y (fst st) (snd st))).
    destruct H as [H|[[<-|Hin] Hm]].
    + left; apply counter_step_keeps; assumption.
    + left; apply counter_step_creates; assumption.
    + right; split; [exact Hin|]. rewrite counter_step_mem by exact Hx; exact Hm.
Qed.

Lemma counters_fold_done (ts : list elem) (d : document) (f : nat) :
  (forall x, In x ts -> doc_has_counter x d = true) ->
  counters_fold ts (d, f) = (d, f).
Proof.
  revert f; induction ts as [|y ts IH]; intros f H; simpl; [reflexivity|].
  rewrite (counter_step_has y d f) by (apply H; left; reflexivity).
  apply IH; intros x Hx; apply H; right; exact Hx.
Qed.

End Counters.

(** Claim C9: the counter creation of initCommentSystem is idempotent.
    After one run, every comment textarea's next element sibling is a
    [char-counter]; a second run (with any supply of fresh node identities)
    then creates no element and leaves the document as it is, so repeated
    runs never add a second counter for the same textarea. *)
Theorem initCommentCounters_idempotent (d : document) (fresh fresh' : nat) :
  let d1 := fst (initCommentCounters d fresh) in
  (forall x, In x (query_textareas d1) -> doc_has_counter x d1 = true) /\
  initCommentCounters d1 fresh' = (d1, fresh').
Proof.
  intros d1.
  assert (Hall : forall x, In x (query_textareas d1) -> doc_has_counter x d1 = true).
  { intros x Hx.
    unfold d1, initCommentCounters in *.
    rewrite counters_fold_query in Hx; simpl in Hx.
    destruct (query_textareas_spec x d Hx) as [Ht Hm].
    apply counters_fold_all; [exact Ht|right; split; assumption]. }
  split; [exact Hall|].
  unfold initCommentCounters at 1.
  apply counters_fold_done; exact Hall.
Qed.

(** ** Witnesses *)


(** [imagePreviewChange_ignores_non_images] on a selected text file. *)
Lemma imagePreviewChange_ignores_non_images_witness :
  imagePreviewChange 5 None [mkFile "text/plain" "notes.txt"] 10 = [].
Proof.
  apply imagePreviewChange_ignores_non_images.
  right; exists (mkFile "text/plain" "notes.txt"), []; split; reflexivity.
Defined.

(* ======================================================================== *)
(** * Further properties of main.js *)

(** ** timeAgo bands *)

Lemma timeAgo_unfold (loc : Z -> string) (now past : Z) :
  timeAgo loc now past =
  let x := now - past in
  if x / 1000 <? 60 then "just now"%string
  else if x / 60000 <? 60 then
    (number_to_string (x / 60000) ++ " minute" ++ plural (x / 60000) ++ " ago")%string
  else if x / 3600000 <? 24 then
    (number_to_string (x / 3600000) ++ " hour" ++ plural (x / 3600000) ++ " ago")%string
  else if x / 86400000 <? 7 then
    (number_to_string (x / 86400000) ++ " day" ++ plural (x / 86400000) ++ " ago")%string
  else loc past.
Proof.
  unfold timeAgo; cbv zeta.
  rewrite !Z.div_div by lia. reflexivity.
Qed.

Lemma div_band (x q k : Z) : 0 < q -> k * q <= x < (k + 1) * q -> x / q = k.
Proof.
  intros Hq Hx. symmetry. apply (Z.div_unique_pos x q k (x - q * k)); lia.
Qed.

Lemma plural_one (n : Z) : 1 <= n -> plural n = if n =? 1 then ""%string else "s"%string.
Proof.
  intros Hn; unfold plural.
  destruct (Z.eqb_spec n 1); destruct (Z.gtb_spec n 1); try reflexivity; lia.
Qed.

Lemma ltb_false (a b : Z) : b <= a -> (a <? b) = false.
Proof. intros; apply Z.ltb_ge; lia. Qed.

Lemma ltb_true (a b : Z) : a < b -> (a <? b) = true.
Proof. intros; apply Z.ltb_lt; lia. Qed.

(** Less than a minute before now, and any date in the future, is "just now". *)
Theorem timeAgo_just_now (loc : Z -> string) (now past : Z) :
  now - past < 60000 -> timeAgo loc now past = "just now"%string.
Proof.
  intros H; rewrite timeAgo_unfold; cbv zeta.
  rewrite ltb_true; [reflexivity|].
  apply Z.div_lt_upper_bound; lia.
Qed.

(** [m] whole minutes (1 <= m < 60) plus less than a minute: "m minute(s) ago",
    the singular for one minute; the remainder is truncated. *)
Theorem timeAgo_minutes (loc : Z -> string) (now m r : Z) :
  1 <= m < 60 -> 0 <= r < 60000 ->
  timeAgo loc now (now - (m * 60000 + r)) =
    (number_to_string m ++ " minute" ++ (if Z.eqb m 1 then "" else "s") ++ " ago")%string.
Proof.
  intros Hm Hr; rewrite timeAgo_unfold; cbv zeta.
  replace (now - (now - (m * 60000 + r))) with (m * 60000 + r) by ring.
  rewrite (ltb_false _ 60) by (apply Z.div_le_lower_bound; lia).
  rewrite (div_band (m * 60000 + r) 60000 m) by lia.
  rewrite (ltb_true m 60) by lia.
  rewrite plural_one by lia; reflexivity.
Qed.

(** [h] whole hours (1 <= h < 24) plus less than an hour: "h hour(s) ago". *)
Theorem timeAgo_hours (loc : Z -> string) (now h r : Z) :
  1 <= h < 24 -> 0 <= r < 3600000 ->
  timeAgo loc now (now - (h * 3600000 + r)) =
    (number_to_string h ++ " hour" ++ (if Z.eqb h 1 then "" else "s") ++ " ago")%string.
Proof.
  intros Hh Hr; rewrite timeAgo_unfold; cbv zeta.
  replace (now - (now - (h * 3600000 + r))) with (h * 3600000 + r) by ring.
  rewrite (ltb_false _ 60) by (apply Z.div_le_lower_bound; lia).
  rewrite (ltb_false _ 60) by (apply Z.div_le_lower_bound; lia).
  rewrite (div_band (h * 3600000 + r) 3600000 h) by lia.
  rewrite (ltb_true h 24) by lia.
  rewrite plural_one by lia; reflexivity.
Qed.

(** [d] whole days (1 <= d < 7) plus less than a day: "d day(s) ago". *)
Theorem timeAgo_days (loc : Z -> string) (now d r : Z) :
  1 <= d < 7 -> 0 <= r < 86400000 ->
  timeAgo loc now (now - (d * 86400000 + r)) =
    (number_to_string d ++ " day" ++ (if Z.eqb d 1 then "" else "s") ++ " ago")%string.
Proof.
  intros Hd Hr; rewrite timeAgo_unfold; cbv zeta.
  replace (now - (now - (d * 86400000 + r))) with (d * 86400000 + r) by ring.
  rewrite (ltb_false _ 60) by (apply Z.div_le_lower_bound; lia).
  rewrite (ltb_false _ 60) by (apply Z.div_le_lower_bound; lia).
  rewrite (ltb_false _ 24) by (apply Z.div_le_lower_bound; lia).
  rewrite (div_band (d * 86400000 + r) 86400000 d) by lia.
  rewrite (ltb_true d 7) by lia.
  rewrite plural_one by lia; reflexivity.
Qed.

(** Seven days or more before now: the locale date string of the date. *)
Theorem timeAgo_week_or_more (loc : Z -> string) (now past : Z) :
  604800000 <= now - past -> timeAgo loc now past = loc past.
Proof.
  intros H; rewrite timeAgo_unfold; cbv zeta.
  rewrite (ltb_false _ 60) by (apply Z.div_le_lower_bound; lia).
  rewrite (ltb_false _ 60) by (apply Z.div_le_lower_bound; lia).
  rewrite (ltb_false _ 24) by (apply Z.div_le_lower_bound; lia).
  rewrite (ltb_false _ 7) by (apply Z.div_le_lower_bound; lia).
  reflexivity.
Qed.

(** ** debounce with calls spaced by more than the timer delay *)

Section DebounceSpaced.
Variable A : Type.
Variable wait : Z.

Definition fired (p : Z * A) : Z * A := (fst p + timer_delay wait, snd p).

Lemma process_spaced_inv (bs : list (Z * A)) :
  forall (t : Z) (a : A) (s : dstate A) (d : Z * A),
  spaced A wait ((t, a) :: bs) ->
  table s = [mkTimer A (next_id s - 1)%nat (t + timer_delay wait) a] ->
  timeout s = Some (next_id s - 1)%nat ->
  (let s' := process A wait bs s in
   table s' = [mkTimer A (next_id s' - 1)%nat
                 (fst (last ((t, a) :: bs) d) + timer_delay wait)
                 (snd (last ((t, a) :: bs) d))] /\
   timeout s' = Some (next_id s' - 1)%nat /\
   calls s' ++ [fired (last ((t, a) :: bs) d)] = calls s ++ map fired ((t, a) :: bs)).
Proof.
  induction bs as [|[t' a'] r IH]; intros t a s d Hr Ht Hh; simpl.
  - repeat split; assumption.
  - destruct Hr as [Hlt Hr].
    rewrite (advance_after_due A s _ (t' - 1) Ht Hh) by (simpl; lia).
    unfold executedFunction, set_now; simpl. rewrite Hh; simpl.
    specialize (IH t' a'
      (mkD A t' (S (next_id s)) [mkTimer A (next_id s) (t' + timer_delay wait) a']
           (Some (next_id s)) (calls s ++ [(t + timer_delay wait, a)])) d Hr).
    simpl in IH; rewrite Nat.sub_0_r in IH.
    destruct (IH eq_refl eq_refl) as [H1 [H2 H3]].
    split; [exact H1|split; [exact H2|]].
    rewrite H3, <- app_assoc; reflexivity.
Qed.

End DebounceSpaced.


(** ** Reply-form toggle *)

Lemma toggle_flips (c : string) (cs : list string) :
  existsb (String.eqb c) (toggle c cs) = negb (existsb (String.eqb c) cs).
Proof.
  unfold toggle.
  destruct (existsb (String.eqb c) cs) eqn:E; simpl.
  - clear E; induction cs as [|x r IH]; simpl; [reflexivity|].
    destruct (String.eqb c x) eqn:Ex; simpl; [exact IH|rewrite Ex; exact IH].
  - rewrite existsb_app, E; simpl; rewrite String.eqb_refl; reflexivity.
Qed.

(** A click on a reply button toggles [d-none] on its reply form and moves
    the focus to the form's content input exactly when the form was hidden
    (carried [d-none]) before the click, i.e. when the click reveals it. *)
Theorem replyClick_focus_iff_revealed (getElementById : string -> option form)
    (commentId : string) (replyForm : form) (input : nat) :
  getElementById ("reply-form-" ++ commentId)%string = Some replyForm ->
  form_input replyForm = Some input ->
  In (ToggleClass (form_id replyForm) "d-none") (replyClick getElementById commentId) /\
  (In (Focus input) (replyClick getElementById commentId) <->
   existsb (String.eqb "d-none") (form_classes replyForm) = true).
Proof.
  intros Hg Hi; unfold replyClick; rewrite Hg, toggle_flips, Hi.
  destruct (existsb (String.eqb "d-none") (form_classes replyForm)); simpl.
  - split; [left; reflexivity|]. split; [intros _; reflexivity|].
    intros _; right; left; reflexivity.
  - split; [left; reflexivity|]. split; [|discriminate].
    intros [H|[]]; discriminate.
Qed.

(** ** The '/' search shortcut with isInputFocused *)

(** The '/' shortcut never fires while an input, textarea, select or
    content-editable element has the focus, and no other key fires it;
    when any other element (such as the body, the active element when
    nothing is focused) or no element is active, '/' is intercepted and
    focuses the navbar search when there is one. *)
Theorem slashKeydown_respects_focus (key : string) (mainSearch : option nat) :
  (forall a, tagName a = "INPUT"%string \/ tagName a = "TEXTAREA"%string \/
             tagName a = "SELECT"%string \/ isContentEditable a = true ->
     slashKeydown key (isInputFocused (Some a)) mainSearch = []) /\
  (key <> "/"%string -> forall active,
     slashKeydown key (isInputFocused active) mainSearch = []) /\
  (forall a, tagName a <> "INPUT"%string -> tagName a <> "TEXTAREA"%string ->
             tagName a <> "SELECT"%string -> isContentEditable a = false ->
     slashKeydown "/" (isInputFocused (Some a)) mainSearch =
       PreventDefault :: match mainSearch with Some m => [Focus m] | None => [] end) /\
  slashKeydown "/" (isInputFocused None) mainSearch =
    PreventDefault :: match mainSearch with Some m => [Focus m] | None => [] end.
Proof.
  split; [|split; [|split]].
  - intros a Ha; unfold slashKeydown, isInputFocused.
    assert (Hf : (String.eqb (tagName a) "INPUT" || String.eqb (tagName a) "TEXTAREA" ||
                  String.eqb (tagName a) "SELECT" || isContentEditable a) = true).
    { destruct Ha as [H|[H|[H|H]]]; rewrite ?H; simpl;
        rewrite ?orb_true_r; reflexivity. }
    rewrite Hf, andb_false_r; reflexivity.
  - intros Hk active; unfold slashKeydown.
    apply String.eqb_neq in Hk; rewrite Hk; reflexivity.
  - intros a H1 H2 H3 H4; unfold slashKeydown, isInputFocused.
    apply String.eqb_neq in H1, H2, H3; rewrite H1, H2, H3, H4; reflexivity.
  - reflexivity.
Qed.

(** ** Image preview of an image file *)

(** Find an element in an explicit list. *)
Ltac in_list := repeat (first [left; reflexivity | right]).

(** For a selected file whose type starts with 'image/', the change listener
    allocates exactly one object URL, for that file; it creates a new
    [.image-preview] div exactly when the input's parent has none, clears the
    preview in use (the existing one or the new one), and shows the file's
    name. *)
Theorem imagePreviewChange_image (parent : nat) (existing : option nat)
    (f : file) (rest : list file) (fresh : nat) :
  String.prefix "image/" (ftype f) = true ->
  filter is_object_url (imagePreviewChange parent existing (f :: rest) fresh)
    = [CreateObjectURL (fname f)] /\
  (In (CreateElement fresh "div") (imagePreviewChange parent existing (f :: rest) fresh)
     <-> existing = None) /\
  In (ClearChildren (match existing with Some p => p | None => fresh end))
     (imagePreviewChange parent existing (f :: rest) fresh) /\
  (exists t, In (SetText t (fname f)) (imagePreviewChange parent existing (f :: rest) fresh)).
Proof.
  intros Hf; unfold imagePreviewChange; rewrite Hf.
  destruct existing as [p|]; simpl.
  - split; [reflexivity|]. split; [|split; [in_list|eexists; in_list]].
    split; [|discriminate].
    intros H; repeat (destruct H as [H|H]; [discriminate H|]); contradiction.
  - split; [reflexivity|]. split; [|split; [in_list|eexists; in_list]].
    split; [reflexivity|intros _; in_list].
Qed.

(** ** The scroll-to-top button over a sequence of scroll events *)

Lemma scrollEvents_id (ys : list Q) (b : button) :
  button_id (scrollEvents ys b) = button_id b.
Proof.
  unfold scrollEvents; revert b; induction ys as [|y ys IH]; intros b; simpl;
    [reflexivity|].
  rewrite IH; unfold onScroll; destruct (negb (Qle_bool y 300)); reflexivity.
Qed.

(** The button initScrollToTop creates is hidden until the first scroll;
    after any sequence of scroll events it keeps its identity and is shown
    exactly when the last scroll position exceeds 300 (earlier positions do
    not matter). *)
Theorem scrollTopButton_last_scroll (id : nat) (ys : list Q) (y : Q) :
  display (scrollEvents [] (scrollTopButton id)) = "none"%string /\
  button_id (scrollEvents (ys ++ [y]) (scrollTopButton id)) = id /\
  (display (scrollEvents (ys ++ [y]) (scrollTopButton id)) = "block"%string
     <-> (300 < y)%Q) /\
  (display (scrollEvents (ys ++ [y]) (scrollTopButton id)) = "none"%string
     <-> (y <= 300)%Q).
Proof.
  split; [reflexivity|]. split; [apply scrollEvents_id|].
  unfold scrollEvents; rewrite fold_left_app; simpl.
  generalize (fold_left (fun b y => onScroll y b) ys (scrollTopButton id)) as b.
  intros b; unfold onScroll.
  destruct (Qle_bool y 300) eqn:H; simpl.
  - apply Qle_bool_iff in H. split; split; intro Hx; try discriminate; auto.
    exfalso; apply (Qlt_not_le _ _ Hx H).
  - assert (Hlt : (300 < y)%Q).
    { apply Qnot_le_lt; intro Hle; apply Qle_bool_iff in Hle; congruence. }
    split; split; intro Hx; try discriminate; auto.
    exfalso; apply (Qlt_not_le _ _ Hlt Hx).
Qed.

(** ** Witnesses of the further properties *)

Definition sample_date (t : Z) : string := "1/1/2026".

Lemma timeAgo_just_now_witness :
  timeAgo sample_date 1000000 (1000000 + 5000) = "just now"%string.
Proof. apply timeAgo_just_now; lia. Defined.

Lemma timeAgo_minutes_witness :
  timeAgo sample_date 9000000 (9000000 - (1 * 60000 + 59999)) = "1 minute ago"%string.
Proof. apply (timeAgo_minutes sample_date 9000000 1 59999); lia. Defined.

Lemma timeAgo_hours_witness :
  timeAgo sample_date 900000000 (900000000 - (23 * 3600000 + 1))
    = "23 hours ago"%string.
Proof. apply (timeAgo_hours sample_date 900000000 23 1); lia. Defined.

Lemma timeAgo_days_witness :
  timeAgo sample_date 900000000 (900000000 - (6 * 86400000 + 86399999))
    = "6 days ago"%string.
Proof. apply (timeAgo_days sample_date 900000000 6 86399999); lia. Defined.

Lemma timeAgo_week_or_more_witness :
  timeAgo sample_date 900000000 (900000000 - 604800000) = "1/1/2026"%string.
Proof. apply (timeAgo_week_or_more sample_date 900000000); lia. Defined.


Definition sample_forms (id : string) : option form :=
  if String.eqb id "reply-form-7" then Some (mkForm 70%nat ["mt-2"; "d-none"]%string (Some 71%nat))
  else None.

Lemma replyClick_focus_iff_revealed_witness :
  In (Focus 71%nat) (replyClick sample_forms "7").
Proof.
  destruct (replyClick_focus_iff_revealed sample_forms "7"
              (mkForm 70%nat ["mt-2"; "d-none"]%string (Some 71%nat)) 71%nat eq_refl eq_refl)
    as [_ [_ H]].
  apply H; reflexivity.
Defined.

Lemma imagePreviewChange_image_witness :
  filter is_object_url
    (imagePreviewChange 5%nat None [mkFile "image/png" "cat.png"] 10%nat)
    = [CreateObjectURL "cat.png"].
Proof.
  destruct (imagePreviewChange_image 5%nat None (mkFile "image/png" "cat.png") [] 10%nat
              eq_refl) as [H _].
  exact H.
Defined.
